(** * The libCEC callback bridge of [cec/callbacks_c.c]

    The file under verification holds seven C entry points that libCEC calls
    by address.  Each one checks its payload, reads the fields it needs and
    calls one [extern] function implemented on the Go side.

    The embedding keeps that shape.  Pointers are integers with [NULL = 0];
    memory is a finite map from addresses to typed objects; reading through a
    pointer that is null or that holds no object of the expected type is a
    fault ([None]).  The Go side is an interface of seven handlers that may
    change their own state and the memory they can reach.  Every call that
    crosses the boundary is appended to a trace together with the memory as
    it was at that instant. *)

From Stdlib Require Import ZArith Lia List.
From stdpp Require Import base option numbers list gmap fin_maps fin_map_dom.

Local Open Scope Z_scope.

(** ** C integer types *)

Module CInt.

Definition in_int (z : Z) : Prop := - 2 ^ 31 <= z < 2 ^ 31.
Definition in_uint8 (z : Z) : Prop := 0 <= z < 2 ^ 8.

(** Conversion to [int], as the compiler inserts it where an enum or a
    [uint8_t] is passed for an [int] parameter: a representable value is
    kept, any other one is reduced modulo [2 ^ 32]. *)
Definition to_int (z : Z) : Z := (z + 2 ^ 31) mod 2 ^ 32 - 2 ^ 31.

(** Two integers with the same low [w] bits. *)
Definition same_bits (w : Z) (a b : Z) : Prop :=
  forall i, 0 <= i < w -> Z.testbit a i = Z.testbit b i.

End CInt.

Import CInt.

(** ** Pointers and the records of [libcec/cecc.h] *)

Abbreviation ptr := Z.
Definition NULL : ptr := 0.

(** The C truth value of a pointer used as a condition. *)
Definition nonnull (p : ptr) : bool := negb (p =? NULL).

(** The libCEC records the bridge reads.  Enum-typed fields ([level],
    [keycode], [paramType]) hold the enum's integer value. *)
Record cec_log_message := {
  message : ptr;      (* const char*   *)
  level : Z;          (* cec_log_level *)
  time : Z            (* int64_t       *)
}.

Record cec_keypress := {
  keycode : Z;        (* cec_user_control_code *)
  duration : Z        (* unsigned int          *)
}.

Record libcec_parameter := {
  paramType : Z;      (* libcec_parameter_type *)
  paramData : ptr     (* void*                 *)
}.

(** What an address can hold.  [Opaque] stands for everything the bridge
    never looks into: message text, [cec_command], [libcec_configuration],
    the adapter object behind the handle. *)
Inductive object :=
| LogMessageObj (m : cec_log_message)
| KeypressObj (k : cec_keypress)
| ParameterObj (p : libcec_parameter)
| Opaque (bytes : list Z).

Abbreviation memory := (gmap Z object).

Definition as_log_message (o : object) : option cec_log_message :=
  match o with LogMessageObj m => Some m | _ => None end.

Definition as_keypress (o : object) : option cec_keypress :=
  match o with KeypressObj k => Some k | _ => None end.

(** ** The Go side *)

(** One constructor per [extern] declaration of the file, with the
    arguments of that declaration. *)
Inductive host_call :=
| LogMessageCall (handle : ptr) (lvl : Z) (timestamp : Z) (text : ptr)
| KeyPressCall (handle : ptr) (code : Z) (dur : Z)
| CommandCall (handle : ptr) (command : ptr)
| ConfigurationChangedCall (handle : ptr) (config : ptr)
| AlertCall (handle : ptr) (alert : Z) (param : ptr)
| MenuStateChangedCall (handle : ptr) (menu_state : Z)
| SourceActivatedCall (handle : ptr) (address : Z) (activated : Z).

Definition call_handle (c : host_call) : ptr :=
  match c with
  | LogMessageCall h _ _ _ | KeyPressCall h _ _ | CommandCall h _
  | ConfigurationChangedCall h _ | AlertCall h _ _
  | MenuStateChangedCall h _ | SourceActivatedCall h _ _ => h
  end.

(** The handlers implemented in [callbacks.go] and declared [extern] at
    lines 8-14.  [W] is whatever state the Go side keeps; a handler sees it
    and the C memory and may change both, and it returns.  Only the
    menu-state handler yields a value. *)
Class HostBridge (W : Type) := {
  goLogMessageCallbackBridge : ptr -> Z -> Z -> ptr -> W -> memory -> W * memory;
  goKeyPressCallbackBridge : ptr -> Z -> Z -> W -> memory -> W * memory;
  goCommandCallbackBridge : ptr -> ptr -> W -> memory -> W * memory;
  goConfigurationChangedCallbackBridge : ptr -> ptr -> W -> memory -> W * memory;
  goAlertCallbackBridge : ptr -> Z -> ptr -> W -> memory -> W * memory;
  goMenuStateChangedCallbackBridge : ptr -> Z -> W -> memory -> Z * (W * memory);
  goSourceActivatedCallbackBridge : ptr -> Z -> Z -> W -> memory -> W * memory
}.

(** ** Machine state and the monad of the C side *)

Record state (W : Type) := State {
  world : W;                              (* the Go side's own state *)
  heap : memory;                          (* C memory *)
  reads : list ptr;                       (* addresses the bridge read through *)
  calls : list (host_call * memory)       (* boundary crossings, oldest first *)
}.

Arguments State {W} _ _ _ _.
Arguments world {W} _.
Arguments heap {W} _.
Arguments reads {W} _.
Arguments calls {W} _.

(** The calls of a trace without the memory snapshots. *)
Definition dispatches {W} (st : state W) : list host_call := (calls st).*1.

(** A computation either faults or yields a value and a new state. *)
Definition M (W A : Type) : Type := state W -> option (A * state W).

Definition ret {W A} (a : A) : M W A := fun st => Some (a, st).

Definition bind {W A B} (m : M W A) (k : A -> M W B) : M W B :=
  fun st => match m st with
            | Some (a, st') => k a st'
            | None => None
            end.

Declare Scope bridge_scope.
Delimit Scope bridge_scope with bridge.
Notation "x <- m ;; k" := (bind m (fun x => k))
  (at level 100, m at next level, right associativity) : bridge_scope.
Notation "m ;;; k" := (bind m (fun _ => k))
  (at level 100, right associativity) : bridge_scope.

Section Bridge.

Context {W : Type} `{host : HostBridge W}.

Local Open Scope bridge_scope.

(** [p->field]: one read through [p]. *)
Definition load {A} (as_A : object -> option A) (p : ptr) : M W A :=
  fun st =>
    if nonnull p then
      match heap st !! p ≫= as_A with
      | Some a => Some (a, State (world st) (heap st) (reads st ++ [p]) (calls st))
      | None => None
      end
    else None.

(** Storage for a by-value parameter whose address is taken: a location
    that is not null and holds no other object, filled with the value
    the caller passed.  Which location it is, the source does not say;
    the theorems rest on those two facts only and compare what stands at
    the address, never addresses of two runs. *)
Definition frame_address (m : memory) : ptr := fresh ({[NULL]} ∪ dom m).

Definition enter_frame (o : object) : M W ptr :=
  fun st =>
    let a := frame_address (heap st) in
    Some (a, State (world st) (<[a := o]> (heap st)) (reads st) (calls st)).

(** The storage ends with the function. *)
Definition leave_frame (a : ptr) : M W unit :=
  fun st => Some (tt, State (world st) (delete a (heap st)) (reads st) (calls st)).

(** The handler a call names, applied; [None] for a [void] handler. *)
Definition run_host (c : host_call) (w : W) (m : memory) : option Z * (W * memory) :=
  match c with
  | LogMessageCall h l t p => (None, goLogMessageCallbackBridge h l t p w m)
  | KeyPressCall h k d => (None, goKeyPressCallbackBridge h k d w m)
  | CommandCall h p => (None, goCommandCallbackBridge h p w m)
  | ConfigurationChangedCall h p => (None, goConfigurationChangedCallbackBridge h p w m)
  | AlertCall h a p => (None, goAlertCallbackBridge h a p w m)
  | MenuStateChangedCall h s =>
      let '(r, wm) := goMenuStateChangedCallbackBridge h s w m in (Some r, wm)
  | SourceActivatedCall h a b => (None, goSourceActivatedCallbackBridge h a b w m)
  end.

(** Crossing the boundary: the call is traced, then the handler runs. *)
Definition extern (c : host_call) : M W (option Z) :=
  fun st =>
    let '(r, (w', m')) := run_host c (world st) (heap st) in
    Some (r, State w' m' (reads st) (calls st ++ [(c, heap st)])).

Definition extern_void (c : host_call) : M W unit :=
  extern c ;;; ret tt.

(** A handler declared [int] that yields nothing has no C meaning. *)
Definition extern_int (c : host_call) : M W Z :=
  r <- extern c ;;
  match r with
  | Some z => ret z
  | None => fun _ => None
  end.

(** *** The seven entry points *)

(** [callbacks_c.c], lines 16-20:
    [if (message && message->message)
       goLogMessageCallbackBridge(handle, message->level, message->time,
                                  message->message);]
    with the text pointer cast to a pointer to non-const [char].  The
    record pointer is called [msg] here, [message] being its field. *)
Definition goLogMessageCallback (handle : ptr) (msg : ptr) : M W unit :=
  if nonnull msg then
    text <- load (fmap message ∘ as_log_message) msg ;;
    if nonnull text then
      lvl <- load (fmap level ∘ as_log_message) msg ;;
      t <- load (fmap time ∘ as_log_message) msg ;;
      text' <- load (fmap message ∘ as_log_message) msg ;;
      extern_void (LogMessageCall handle (to_int lvl) t text')
    else ret tt
  else ret tt.

(** Lines 22-26:
    [if (key) goKeyPressCallbackBridge(handle, key->keycode, key->duration);] *)
Definition goKeyPressCallback (handle : ptr) (key : ptr) : M W unit :=
  if nonnull key then
    code <- load (fmap keycode ∘ as_keypress) key ;;
    dur <- load (fmap duration ∘ as_keypress) key ;;
    extern_void (KeyPressCall handle (to_int code) dur)
  else ret tt.

(** Lines 28-32:
    [if (command) goCommandCallbackBridge(handle, command);]
    with the pointer cast to a pointer to [void]. *)
Definition goCommandCallback (handle : ptr) (command : ptr) : M W unit :=
  if nonnull command then
    extern_void (CommandCall handle command)
  else ret tt.

(** Lines 34-38:
    [if (config) goConfigurationChangedCallbackBridge(handle, config);]
    with the pointer cast to a pointer to [void]. *)
Definition goConfigurationChangedCallback (handle : ptr) (config : ptr) : M W unit :=
  if nonnull config then
    extern_void (ConfigurationChangedCall handle config)
  else ret tt.

(** Lines 40-42: [goAlertCallbackBridge(handle, alert, &param);] with the
    address cast to a pointer to [void].  [param] is received by value,
    so [&param] is the address of the storage this function holds it
    in. *)
Definition goAlertCallback (handle : ptr) (alert : Z) (param : libcec_parameter)
  : M W unit :=
  a <- enter_frame (ParameterObj param) ;;
  extern_void (AlertCall handle (to_int alert) a) ;;;
  leave_frame a.

(** Lines 44-46: [return goMenuStateChangedCallbackBridge(handle, state);] *)
Definition goMenuStateChangedCallback (handle : ptr) (menu_state : Z) : M W Z :=
  extern_int (MenuStateChangedCall handle (to_int menu_state)).

(** Lines 48-50:
    [goSourceActivatedCallbackBridge(handle, address, activated);]
    with [activated] a [uint8_t]. *)
Definition goSourceActivatedCallback (handle : ptr) (address : Z) (activated : Z)
  : M W unit :=
  extern_void (SourceActivatedCall handle (to_int address) (to_int activated)).

End Bridge.

(** ** libCEC as the caller *)

(** libCEC reaches the bridge through the seven slots of its callback
    table; an invocation is a slot together with the arguments libCEC
    passes to it. *)
Inductive invocation :=
| LogMessage (handle : ptr) (msg : ptr)
| KeyPress (handle : ptr) (key : ptr)
| Command (handle : ptr) (command : ptr)
| ConfigurationChanged (handle : ptr) (config : ptr)
| Alert (handle : ptr) (alert : Z) (param : libcec_parameter)
| MenuStateChanged (handle : ptr) (menu_state : Z)
| SourceActivated (handle : ptr) (address : Z) (activated : Z).

Definition invocation_handle (i : invocation) : ptr :=
  match i with
  | LogMessage h _ | KeyPress h _ | Command h _ | ConfigurationChanged h _
  | Alert h _ _ | MenuStateChanged h _ | SourceActivated h _ _ => h
  end.

Section Caller.

Context {W : Type} `{host : HostBridge W}.

Local Open Scope bridge_scope.

(** What libCEC gets back: an [int] from the menu-state slot, nothing
    from the others. *)
Definition invoke (i : invocation) : M W (option Z) :=
  match i with
  | LogMessage h p => goLogMessageCallback h p ;;; ret None
  | KeyPress h p => goKeyPressCallback h p ;;; ret None
  | Command h p => goCommandCallback h p ;;; ret None
  | ConfigurationChanged h p => goConfigurationChangedCallback h p ;;; ret None
  | Alert h a prm => goAlertCallback h a prm ;;; ret None
  | MenuStateChanged h s => r <- goMenuStateChangedCallback h s ;; ret (Some r)
  | SourceActivated h a b => goSourceActivatedCallback h a b ;;; ret None
  end.

(** Events delivered one after the other. *)
Fixpoint deliver (evs : list invocation) : M W (list (option Z)) :=
  match evs with
  | [] => ret []
  | i :: rest =>
      r <- invoke i ;;
      rs <- deliver rest ;;
      ret (r :: rs)
  end.

End Caller.

(** ** Host sides used to run the bridge on concrete inputs *)

(** A Go side that keeps no state, leaves memory alone and answers every
    menu-state query with the state it was asked about. *)
Definition quiet_host : HostBridge unit := {|
  goLogMessageCallbackBridge _ _ _ _ w m := (w, m);
  goKeyPressCallbackBridge _ _ _ w m := (w, m);
  goCommandCallbackBridge _ _ w m := (w, m);
  goConfigurationChangedCallbackBridge _ _ w m := (w, m);
  goAlertCallbackBridge _ _ _ w m := (w, m);
  goMenuStateChangedCallbackBridge _ s w m := (s, (w, m));
  goSourceActivatedCallbackBridge _ _ _ w m := (w, m)
|}.

(** A Go side that counts the queries it has answered and replies with the
    count, and whose alert handler overwrites the parameter it is handed
    through the pointer it received. *)
Definition overwritten : libcec_parameter := {| paramType := 2; paramData := NULL |}.

Definition scribbling_host : HostBridge Z := {|
  goLogMessageCallbackBridge _ _ _ _ w m := (w, m);
  goKeyPressCallbackBridge _ _ _ w m := (w, m);
  goCommandCallbackBridge _ _ w m := (w, m);
  goConfigurationChangedCallbackBridge _ _ w m := (w, m);
  goAlertCallbackBridge _ _ p w m := (w, <[p := ParameterObj overwritten]> m);
  goMenuStateChangedCallbackBridge _ _ w m := (w, (w + 1, m));
  goSourceActivatedCallbackBridge _ _ _ w m := (w, m)
|}.

(** A Go side that counts every call it receives, of any kind, and
    replies to a menu-state query with the state asked about plus the
    count. *)
Definition tallying_host : HostBridge Z := {|
  goLogMessageCallbackBridge _ _ _ _ w m := (w + 1, m);
  goKeyPressCallbackBridge _ _ _ w m := (w + 1, m);
  goCommandCallbackBridge _ _ w m := (w + 1, m);
  goConfigurationChangedCallbackBridge _ _ w m := (w + 1, m);
  goAlertCallbackBridge _ _ _ w m := (w + 1, m);
  goMenuStateChangedCallbackBridge _ s w m := (s + w, (w + 1, m));
  goSourceActivatedCallbackBridge _ _ _ w m := (w + 1, m)
|}.

(** A memory with one object of each kind: a log record at 16 whose text
    "adapter initialized" is at 64, a log record at 32 with no text, a key
    press at 48, and a parameter of the caller at 100. *)
Definition sample_log : cec_log_message :=
  {| message := 64; level := 3; time := 1700000000 |}.
Definition textless_log : cec_log_message :=
  {| message := NULL; level := 3; time := 1700000000 |}.
Definition sample_key : cec_keypress := {| keycode := 68; duration := 500 |}.
Definition sample_param : libcec_parameter := {| paramType := 1; paramData := 64 |}.

Definition sample_memory : memory :=
  <[16 := LogMessageObj sample_log]>
    (<[32 := LogMessageObj textless_log]>
       (<[48 := KeypressObj sample_key]>
          (<[64 := Opaque [97; 100; 97; 112; 116; 101; 114; 32; 105; 110; 105;
                           116; 105; 97; 108; 105; 122; 101; 100; 0]]>
             (<[100 := ParameterObj sample_param]> ∅)))).

Definition sample_state {W} (w : W) : state W := State w sample_memory [] [].

(** ** States reached by the steps of the bridge *)

Section Steps.

Context {W : Type} `{host : HostBridge W}.

(** The state after the bridge has read through the pointers [ps]. *)
Definition having_read (ps : list ptr) (st : state W) : state W :=
  State (world st) (heap st) (reads st ++ ps) (calls st).

(** The state after the call [c] has crossed the boundary and its
    handler has returned. *)
Definition crossed (c : host_call) (st : state W) : state W :=
  State (run_host c (world st) (heap st)).2.1
        (run_host c (world st) (heap st)).2.2
        (reads st)
        (calls st ++ [(c, heap st)]).

(** The state with the frame of a parameter entered, and left. *)
Definition framed (o : object) (st : state W) : state W :=
  State (world st) (<[frame_address (heap st) := o]> (heap st)) (reads st) (calls st).

Definition unframed (a : ptr) (st : state W) : state W :=
  State (world st) (delete a (heap st)) (reads st) (calls st).

(** An alert handler that writes to C memory only through the pointer it
    is handed. *)
Definition alert_writes_through_param : Prop :=
  forall h a q w m k, k <> q ->
    (goAlertCallbackBridge h a q w m).2 !! k = m !! k.

End Steps.

(** ** The properties the bridge is held to *)


(** [v] is the [int] that carries [x]: it has the bits of [x], hence its
    value whenever [x] is itself an [int]. *)
Definition int_image (x v : Z) : Prop :=
  in_int v /\ same_bits 32 v x /\ (in_int x -> v = x).


(** What one invocation adds to the trace, and what it means for the
    bridge to keep nothing of its own from one invocation to the next. *)
Section Outcome.

Context {W : Type}.

Definition new_calls (st st' : state W) : list (host_call * memory) :=
  drop (length (calls st)) (calls st').

(** The alert path as the specification words it: what the handler
    stores through the pointer it is handed is what libCEC finds in its
    own parameter, kept at [c], when the call is over. *)
Definition alert_mutation_reaches_caller
    (host : HostBridge W) (h a c : Z) (st : state W) : Prop :=
  forall prm q snap st',
    heap st !! c = Some (ParameterObj prm) ->
    goAlertCallback h a prm st = Some (tt, st') ->
    last (calls st') = Some (AlertCall h (to_int a) q, snap) ->
    heap st' !! c = (goAlertCallbackBridge h (to_int a) q (world st) snap).2 !! q.

(** The address a call carries that is storage of the bridge itself: the
    frame of the alert parameter.  No other call carries one. *)
Definition frame_of (c : host_call) : option ptr :=
  match c with
  | AlertCall _ _ q => Some q
  | _ => None
  end.

(** Two traced calls that carry the same values: the same handler with
    the same arguments.  Where the argument is the address of the
    bridge's frame, which no argument of the invocation fixes, the value
    that stands at the address counts, not the address. *)
Definition same_call (e1 e2 : host_call * memory) : Prop :=
  match e1.1, e2.1 with
  | AlertCall h1 a1 q1, AlertCall h2 a2 q2 =>
      h1 = h2 /\ a1 = a2 /\ is_Some (e1.2 !! q1) /\ e1.2 !! q1 = e2.2 !! q2
  | c1, c2 => c1 = c2
  end.

(** A run from [st] to [st'] with result [r] and calls [new] in which
    the bridge has only relayed.  With no call made, nothing is returned
    and nothing has changed.  With one call made, the handler found the
    caller's memory as it was at entry, and what the run yields (the
    result, the Go side's state, the caller's memory) is what the
    handler yielded for that call; the frame the call may carry is no
    object of the caller, before or after. *)
Definition relayed (host : HostBridge W) (st : state W) (r : option Z)
    (st' : state W) (new : list (host_call * memory)) : Prop :=
  match new with
  | [] => r = None /\ world st' = world st /\ heap st' = heap st
  | [(c, snap)] =>
      let reply := run_host c (world st) snap in
      r = reply.1
      /\ world st' = reply.2.1
      /\ (forall k, frame_of c <> Some k ->
            snap !! k = heap st !! k /\ heap st' !! k = reply.2.2 !! k)
      /\ (forall q, frame_of c = Some q ->
            heap st !! q = None /\ heap st' !! q = None)
  | _ => False
  end.

End Outcome.

(** ** Classifying invocations and calls *)

(** The seven slots of the callback table; an invocation and the call it
    leads to belong to one of them. *)
Inductive slot :=
| LogSlot | KeySlot | CommandSlot | ConfigurationSlot
| AlertSlot | MenuSlot | SourceSlot.

Definition invocation_slot (i : invocation) : slot :=
  match i with
  | LogMessage _ _ => LogSlot
  | KeyPress _ _ => KeySlot
  | Command _ _ => CommandSlot
  | ConfigurationChanged _ _ => ConfigurationSlot
  | Alert _ _ _ => AlertSlot
  | MenuStateChanged _ _ => MenuSlot
  | SourceActivated _ _ _ => SourceSlot
  end.

Definition call_slot (c : host_call) : slot :=
  match c with
  | LogMessageCall _ _ _ _ => LogSlot
  | KeyPressCall _ _ _ => KeySlot
  | CommandCall _ _ => CommandSlot
  | ConfigurationChangedCall _ _ => ConfigurationSlot
  | AlertCall _ _ _ => AlertSlot
  | MenuStateChangedCall _ _ => MenuSlot
  | SourceActivatedCall _ _ _ => SourceSlot
  end.

(** The pointer a handler receives besides the handle, if it receives
    one: the text, the command, the configuration, the parameter. *)
Definition payload_pointer (c : host_call) : option ptr :=
  match c with
  | LogMessageCall _ _ _ p | CommandCall _ p
  | ConfigurationChangedCall _ p | AlertCall _ _ p => Some p
  | KeyPressCall _ _ _ | MenuStateChangedCall _ _
  | SourceActivatedCall _ _ _ => None
  end.

(** The record pointer of the two entry points that read through it. *)
Definition record_pointer (i : invocation) : option ptr :=
  match i with
  | LogMessage _ p | KeyPress _ p => Some p
  | _ => None
  end.

(** A non-null record pointer at which memory holds no record of the
    type the entry point reads. *)
Inductive dangling (m : memory) : invocation -> Prop :=
| dangling_log h p :
    p <> NULL -> m !! p ≫= as_log_message = None -> dangling m (LogMessage h p)
| dangling_key h p :
    p <> NULL -> m !! p ≫= as_keypress = None -> dangling m (KeyPress h p).

(** The payloads the guards of the entry points turn away: a null record
    pointer, or a log record whose text pointer is null. *)
Inductive turned_away (m : memory) : invocation -> Prop :=
| away_null_log h : turned_away m (LogMessage h NULL)
| away_textless_log h p r :
    p <> NULL -> m !! p = Some (LogMessageObj r) -> message r = NULL ->
    turned_away m (LogMessage h p)
| away_null_key h : turned_away m (KeyPress h NULL)
| away_null_command h : turned_away m (Command h NULL)
| away_null_config h : turned_away m (ConfigurationChanged h NULL).

(** * Proofs *)

(** ** Integer conversions *)

Lemma to_int_in_int z : in_int (to_int z).
Proof.
  unfold in_int, to_int.
  pose proof (Z.mod_pos_bound (z + 2 ^ 31) (2 ^ 32) ltac:(lia)). lia.
Qed.

Lemma to_int_id z : in_int z -> to_int z = z.
Proof.
  unfold in_int, to_int. intros Hz.
  rewrite Z.mod_small by lia. lia.
Qed.

Lemma to_int_congruent z : to_int z mod 2 ^ 32 = z mod 2 ^ 32.
Proof.
  unfold to_int.
  rewrite <- Zminus_mod_idemp_l, Z.mod_mod by lia.
  rewrite Zminus_mod_idemp_l. f_equal. lia.
Qed.

Lemma to_int_same_bits z : same_bits 32 (to_int z) z.
Proof.
  intros i Hi.
  rewrite <- (Z.mod_pow2_bits_low (to_int z) 32 i) by lia.
  rewrite <- (Z.mod_pow2_bits_low z 32 i) by lia.
  by rewrite to_int_congruent.
Qed.

Lemma to_int_image z : int_image z (to_int z).
Proof.
  split; [apply to_int_in_int|]. split; [apply to_int_same_bits|apply to_int_id].
Qed.

Lemma to_int_uint8 z : in_uint8 z -> to_int z = z.
Proof. unfold in_uint8. intros Hz. apply to_int_id. unfold in_int. lia. Qed.

(** An [int] is determined by its 32 bits. *)
Lemma int_image_unique x v1 v2 : int_image x v1 -> int_image x v2 -> v1 = v2.
Proof.
  intros (H1 & B1 & _) (H2 & B2 & _).
  assert (E : v1 mod 2 ^ 32 = v2 mod 2 ^ 32).
  { apply Z.bits_inj'. intros i Hi.
    destruct (Z.lt_ge_cases i 32) as [Hlt|Hge].
    - rewrite !Z.mod_pow2_bits_low by lia.
      rewrite B1, B2 by lia. done.
    - rewrite !Z.mod_pow2_bits_high by lia. done. }
  unfold in_int in *.
  rewrite <- (to_int_id v1), <- (to_int_id v2) by done.
  unfold to_int.
  rewrite <- (Zplus_mod_idemp_l v1), <- (Zplus_mod_idemp_l v2), E. done.
Qed.

(** ** The frame of a by-value parameter *)

Lemma frame_address_nonnull (m : memory) : frame_address m <> NULL.
Proof.
  unfold frame_address. intros E.
  apply (is_fresh ({[NULL]} ∪ dom m)). rewrite E. set_solver.
Qed.

Lemma frame_address_free (m : memory) : m !! frame_address m = None.
Proof.
  apply not_elem_of_dom. unfold frame_address. intros E.
  apply (is_fresh ({[NULL]} ∪ dom m)). set_solver.
Qed.

Lemma frame_address_outside (m : memory) k o :
  m !! k = Some o -> k <> frame_address m.
Proof. intros Hk ->. by rewrite frame_address_free in Hk. Qed.

(** ** One equation per path through each entry point *)

Section Paths.

Context {W : Type} `{host : HostBridge W}.

Implicit Types (st : state W) (h p : ptr).

Lemma nonnull_NULL : nonnull NULL = false.
Proof. reflexivity. Qed.

Lemma nonnull_true p : p <> NULL -> nonnull p = true.
Proof.
  unfold nonnull. intros Hp.
  destruct (Z.eqb_spec p NULL); [contradiction|reflexivity].
Qed.

Lemma nonnull_false p : nonnull p = false -> p = NULL.
Proof.
  unfold nonnull. destruct (Z.eqb_spec p NULL); [done|discriminate].
Qed.

Lemma load_ok {A} (f : object -> option A) p o a st :
  p <> NULL -> heap st !! p = Some o -> f o = Some a ->
  load f p st = Some (a, having_read [p] st).
Proof.
  intros Hp Ho Ha. unfold load.
  rewrite (nonnull_true p Hp), Ho. simpl. rewrite Ha. reflexivity.
Qed.

Lemma having_read_app ps qs st :
  having_read qs (having_read ps st) = having_read (ps ++ qs) st.
Proof. unfold having_read. simpl. by rewrite <- app_assoc. Qed.

Lemma load_again {A} (f : object -> option A) p ps o a st :
  p <> NULL -> heap st !! p = Some o -> f o = Some a ->
  load f p (having_read ps st) = Some (a, having_read (ps ++ [p]) st).
Proof.
  intros Hp Ho Ha.
  erewrite (load_ok f p o a (having_read ps st)); [|done..].
  by rewrite having_read_app.
Qed.

Lemma extern_void_eq c st : extern_void c st = Some (tt, crossed c st).
Proof.
  unfold extern_void, bind, extern, crossed, ret.
  destruct (run_host c (world st) (heap st)) as [r [w m]]. reflexivity.
Qed.

Lemma extern_int_menu h s st :
  extern_int (MenuStateChangedCall h s) st
  = Some ((goMenuStateChangedCallbackBridge h s (world st) (heap st)).1,
          crossed (MenuStateChangedCall h s) st).
Proof.
  unfold extern_int, bind, extern, crossed, ret. simpl.
  destruct (goMenuStateChangedCallbackBridge h s (world st) (heap st))
    as [r [w m]]. reflexivity.
Qed.

(** *** Log message *)

Lemma goLogMessageCallback_null h st :
  goLogMessageCallback h NULL st = Some (tt, st).
Proof. reflexivity. Qed.

Lemma goLogMessageCallback_no_text h p r st :
  p <> NULL -> heap st !! p = Some (LogMessageObj r) -> message r = NULL ->
  goLogMessageCallback h p st = Some (tt, having_read [p] st).
Proof.
  intros Hp Hr Hm. unfold goLogMessageCallback, bind.
  rewrite (nonnull_true p Hp).
  erewrite (load_ok _ p _ (message r) _ Hp Hr) by reflexivity.
  rewrite Hm, nonnull_NULL. reflexivity.
Qed.

Lemma goLogMessageCallback_valid h p r st :
  p <> NULL -> heap st !! p = Some (LogMessageObj r) -> message r <> NULL ->
  goLogMessageCallback h p st
  = Some (tt, crossed (LogMessageCall h (to_int (level r)) (time r) (message r))
                      (having_read [p; p; p; p] st)).
Proof.
  intros Hp Hr Hm. unfold goLogMessageCallback, bind.
  rewrite (nonnull_true p Hp).
  erewrite (load_ok _ p _ (message r) _ Hp Hr) by reflexivity.
  rewrite (nonnull_true _ Hm).
  erewrite (load_again _ p _ _ (level r) _ Hp Hr) by reflexivity.
  erewrite (load_again _ p _ _ (time r) _ Hp Hr) by reflexivity.
  erewrite (load_again _ p _ _ (message r) _ Hp Hr) by reflexivity.
  rewrite extern_void_eq. reflexivity.
Qed.

(** *** Key press *)

Lemma goKeyPressCallback_null h st :
  goKeyPressCallback h NULL st = Some (tt, st).
Proof. reflexivity. Qed.

Lemma goKeyPressCallback_valid h p k st :
  p <> NULL -> heap st !! p = Some (KeypressObj k) ->
  goKeyPressCallback h p st
  = Some (tt, crossed (KeyPressCall h (to_int (keycode k)) (duration k))
                      (having_read [p; p] st)).
Proof.
  intros Hp Hk. unfold goKeyPressCallback, bind.
  rewrite (nonnull_true p Hp).
  erewrite (load_ok _ p _ (keycode k) _ Hp Hk) by reflexivity.
  erewrite (load_again _ p _ _ (duration k) _ Hp Hk) by reflexivity.
  rewrite extern_void_eq. reflexivity.
Qed.

(** *** Command and configuration changed *)

Lemma goCommandCallback_null h st :
  goCommandCallback h NULL st = Some (tt, st).
Proof. reflexivity. Qed.

Lemma goCommandCallback_valid h p st :
  p <> NULL ->
  goCommandCallback h p st = Some (tt, crossed (CommandCall h p) st).
Proof.
  intros Hp. unfold goCommandCallback.
  rewrite (nonnull_true p Hp). apply extern_void_eq.
Qed.

Lemma goConfigurationChangedCallback_null h st :
  goConfigurationChangedCallback h NULL st = Some (tt, st).
Proof. reflexivity. Qed.

Lemma goConfigurationChangedCallback_valid h p st :
  p <> NULL ->
  goConfigurationChangedCallback h p st
  = Some (tt, crossed (ConfigurationChangedCall h p) st).
Proof.
  intros Hp. unfold goConfigurationChangedCallback.
  rewrite (nonnull_true p Hp). apply extern_void_eq.
Qed.

(** *** Alert, menu state, source activated: no branch *)

Lemma goAlertCallback_eq h a prm st :
  goAlertCallback h a prm st
  = Some (tt, unframed (frame_address (heap st))
                (crossed (AlertCall h (to_int a) (frame_address (heap st)))
                         (framed (ParameterObj prm) st))).
Proof.
  unfold goAlertCallback, bind, enter_frame, leave_frame.
  rewrite extern_void_eq. reflexivity.
Qed.

Lemma goMenuStateChangedCallback_eq h s st :
  goMenuStateChangedCallback h s st
  = Some ((goMenuStateChangedCallbackBridge h (to_int s) (world st) (heap st)).1,
          crossed (MenuStateChangedCall h (to_int s)) st).
Proof. apply extern_int_menu. Qed.

Lemma goSourceActivatedCallback_eq h a b st :
  goSourceActivatedCallback h a b st
  = Some (tt, crossed (SourceActivatedCall h (to_int a) (to_int b)) st).
Proof. apply extern_void_eq. Qed.

End Paths.

(** ** Each entry point in closed form *)

Section ClosedForms.

Context {W : Type} `{host : HostBridge W}.

Implicit Types (st : state W) (h p : ptr).

Lemma goLogMessageCallback_eq h p st :
  goLogMessageCallback h p st =
  if nonnull p then
    match heap st !! p ≫= as_log_message with
    | Some r =>
        if nonnull (message r) then
          Some (tt, crossed (LogMessageCall h (to_int (level r)) (time r) (message r))
                            (having_read [p; p; p; p] st))
        else Some (tt, having_read [p] st)
    | None => None
    end
  else Some (tt, st).
Proof.
  destruct (nonnull p) eqn:Hn; [|by unfold goLogMessageCallback; rewrite Hn].
  assert (Hp : p <> NULL) by (intros ->; discriminate).
  destruct (heap st !! p) as [o|] eqn:Ho; simpl.
  - destruct o as [r|k|q|b]; simpl;
      try (unfold goLogMessageCallback, bind, load; rewrite Hn, Ho; reflexivity).
    destruct (nonnull (message r)) eqn:Hm.
    + apply (goLogMessageCallback_valid h p r st); [done..|]. intros E.
      rewrite E in Hm. discriminate.
    + apply (goLogMessageCallback_no_text h p r st); [done..|]. by apply nonnull_false.
  - unfold goLogMessageCallback, bind, load. rewrite Hn, Ho. reflexivity.
Qed.

Lemma goKeyPressCallback_eq h p st :
  goKeyPressCallback h p st =
  if nonnull p then
    match heap st !! p ≫= as_keypress with
    | Some k =>
        Some (tt, crossed (KeyPressCall h (to_int (keycode k)) (duration k))
                          (having_read [p; p] st))
    | None => None
    end
  else Some (tt, st).
Proof.
  destruct (nonnull p) eqn:Hn; [|by unfold goKeyPressCallback; rewrite Hn].
  assert (Hp : p <> NULL) by (intros ->; discriminate).
  destruct (heap st !! p) as [o|] eqn:Ho; simpl.
  - destruct o as [r|k|q|b]; simpl;
      try (unfold goKeyPressCallback, bind, load; rewrite Hn, Ho; reflexivity).
    by apply (goKeyPressCallback_valid h p k st).
  - unfold goKeyPressCallback, bind, load. rewrite Hn, Ho. reflexivity.
Qed.

Lemma goCommandCallback_eq h p st :
  goCommandCallback h p st =
  if nonnull p then Some (tt, crossed (CommandCall h p) st) else Some (tt, st).
Proof.
  unfold goCommandCallback. destruct (nonnull p); [apply extern_void_eq|done].
Qed.

Lemma goConfigurationChangedCallback_eq h p st :
  goConfigurationChangedCallback h p st =
  if nonnull p then Some (tt, crossed (ConfigurationChangedCall h p) st)
  else Some (tt, st).
Proof.
  unfold goConfigurationChangedCallback.
  destruct (nonnull p); [apply extern_void_eq|done].
Qed.

Lemma snoc_neq {A} (l : list A) x : l ++ [x] <> l.
Proof.
  intros E. apply (f_equal length) in E.
  rewrite length_app in E. simpl in E. lia.
Qed.

End ClosedForms.

(** * The claims *)

Section Claims.

Context {W : Type} `{host : HostBridge W}.

Implicit Types (st : state W) (h p : ptr).


(** C2.  Whatever integer the menu-state entry point is passed, inside
    or outside the enum's range, it returns: its result is the integer
    the host handler returned for that one dispatch, unchanged. *)
Theorem menu_state_result_passed_through h s st :
  exists st',
    goMenuStateChangedCallback h s st
    = Some ((goMenuStateChangedCallbackBridge h (to_int s) (world st) (heap st)).1, st')
    /\ calls st' = calls st ++ [(MenuStateChangedCall h (to_int s), heap st)]
    /\ int_image s (to_int s).
Proof.
  eexists. rewrite goMenuStateChangedCallback_eq.
  repeat split; apply to_int_image.
Qed.

(** C3.  With a null record pointer each of the four pointer-bearing
    entry points returns without a fault and leaves the whole state as
    it found it: no call to any handler, no read, no write. *)
Theorem null_record_dropped h st :
  goLogMessageCallback h NULL st = Some (tt, st)
  /\ goKeyPressCallback h NULL st = Some (tt, st)
  /\ goCommandCallback h NULL st = Some (tt, st)
  /\ goConfigurationChangedCallback h NULL st = Some (tt, st).
Proof. repeat split. Qed.

(** C4.  With a non-null log record the entry point returns, having read
    through the record pointer only (never through the text pointer),
    and it has made a call exactly when the record's text pointer is
    non-null; with a null text pointer nothing but the list of reads
    has changed. *)
Theorem log_message_without_text_dropped h p r st :
  p <> NULL -> heap st !! p = Some (LogMessageObj r) ->
  exists st' n,
    goLogMessageCallback h p st = Some (tt, st')
    /\ reads st' = reads st ++ replicate n p
    /\ (calls st' = calls st <-> message r = NULL)
    /\ (message r = NULL -> world st' = world st /\ heap st' = heap st).
Proof.
  intros Hp Hr.
  destruct (decide (message r = NULL)) as [Hm|Hm].
  - rewrite (goLogMessageCallback_no_text h p r st Hp Hr Hm).
    exists (having_read [p] st), 1%nat. repeat split; done.
  - rewrite (goLogMessageCallback_valid h p r st Hp Hr Hm).
    eexists _, 4%nat. split; [reflexivity|]. split; [reflexivity|].
    split; [|done]. simpl. split; [|done].
    intros E. by apply snoc_neq in E.
Qed.

(** C6.  The alert entry point has no guard: for every alert kind and
    every parameter it returns after exactly one call of the alert
    handler, made with the alert kind as an [int] of the same bits and
    with a non-null address at which the parameter's value stands. *)
Theorem alert_dispatched_unconditionally h a prm st :
  exists q st',
    goAlertCallback h a prm st = Some (tt, st')
    /\ calls st' = calls st ++ [(AlertCall h (to_int a) q,
                                 <[q := ParameterObj prm]> (heap st))]
    /\ q <> NULL
    /\ int_image a (to_int a)
    /\ reads st' = reads st.
Proof.
  exists (frame_address (heap st)). eexists.
  rewrite goAlertCallback_eq. split; [reflexivity|].
  split; [reflexivity|]. split; [apply frame_address_nonnull|].
  split; [apply to_int_image|reflexivity].
Qed.

(** C7.  With a non-null record pointer the command and the
    configuration-changed entry points hand that same pointer value to
    their handler, in one call made on the memory as it was, without
    reading through the pointer. *)
Theorem record_pointer_passed_through h p st :
  p <> NULL ->
  (exists st',
      goCommandCallback h p st = Some (tt, st')
      /\ calls st' = calls st ++ [(CommandCall h p, heap st)]
      /\ reads st' = reads st)
  /\ (exists st',
      goConfigurationChangedCallback h p st = Some (tt, st')
      /\ calls st' = calls st ++ [(ConfigurationChangedCall h p, heap st)]
      /\ reads st' = reads st).
Proof.
  intros Hp. split; eexists.
  - rewrite (goCommandCallback_valid h p st Hp). repeat split.
  - rewrite (goConfigurationChangedCallback_valid h p st Hp). repeat split.
Qed.

(** C10.  For every value of the activation flag that a [uint8_t] can
    hold, 0 to 255, the source-activated entry point calls its handler
    once with exactly that value, and with the logical address as an
    [int] of the same bits (the same value when it is an [int]). *)
Theorem activation_flag_forwarded_verbatim h a b st :
  in_uint8 b ->
  exists st',
    goSourceActivatedCallback h a b st = Some (tt, st')
    /\ calls st' = calls st ++ [(SourceActivatedCall h (to_int a) b, heap st)]
    /\ int_image a (to_int a).
Proof.
  intros Hb. eexists.
  rewrite goSourceActivatedCallback_eq, (to_int_uint8 b Hb).
  repeat split; apply to_int_image.
Qed.

End Claims.

(** Rewriting an entry point to its closed form, and splitting the goal
    along the tests the closed form makes. *)
Ltac closed_form :=
  rewrite ?goLogMessageCallback_eq, ?goKeyPressCallback_eq,
    ?goCommandCallback_eq, ?goConfigurationChangedCallback_eq,
    ?goAlertCallback_eq, ?goMenuStateChangedCallback_eq,
    ?goSourceActivatedCallback_eq.

Ltac split_paths :=
  repeat match goal with
         | |- context [nonnull ?p] => destruct (nonnull p)
         | |- context [?m !! ?p ≫= ?f] => destruct (m !! p ≫= f)
         end.

(** The conjuncts of [relayed] for a run that made one call. *)
Ltac relay_facts :=
  unfold relayed; simpl; repeat split; intros; try done; congruence.

Ltac alert_relay_facts :=
  unfold relayed; simpl;
  split; [reflexivity|]; split; [reflexivity|]; split;
  [ intros k Hk; split;
    [ rewrite lookup_insert_ne; [done|congruence]
    | rewrite lookup_delete_ne; [done|congruence] ]
  | intros q [= <-]; split;
    [ apply frame_address_free | apply lookup_delete_eq ] ].

Ltac relay_menu_facts :=
  unfold relayed; simpl;
  match goal with
  | |- context [goMenuStateChangedCallbackBridge ?h ?s ?w ?m] =>
      destruct (goMenuStateChangedCallbackBridge h s w m) as [? [? ?]]
  end;
  simpl; repeat split; intros; try done; congruence.

Section MemoryAndHistory.

Context {W : Type}.

Implicit Types (st : state W) (h p : ptr).

(** C5, as amended.  The pointer the alert handler receives is the
    address of the bridge's own copy of the parameter: a non-null
    location that held no object of the caller, filled with the value
    passed.  When the bridge returns, that location is gone together
    with whatever the handler stored in it; everything else the handler
    wrote stays. *)
Theorem alert_hands_over_private_copy (host : HostBridge W) h a prm st :
  exists q st' snap,
    goAlertCallback h a prm st = Some (tt, st')
    /\ calls st' = calls st ++ [(AlertCall h (to_int a) q, snap)]
    /\ q <> NULL
    /\ heap st !! q = None
    /\ snap = <[q := ParameterObj prm]> (heap st)
    /\ heap st' = delete q (goAlertCallbackBridge h (to_int a) q (world st) snap).2.
Proof.
  exists (frame_address (heap st)). eexists. eexists.
  rewrite goAlertCallback_eq. split; [reflexivity|].
  split; [reflexivity|]. split; [apply frame_address_nonnull|].
  split; [apply frame_address_free|]. split; reflexivity.
Qed.

(** X6.  When the alert handler writes only through the pointer it is
    handed, the alert entry point leaves memory exactly as it found it:
    the frame of the parameter is released and nothing else has
    changed. *)
Lemma alert_overwrite_discarded (host : HostBridge W) h a prm st st' :
  alert_writes_through_param ->
  goAlertCallback h a prm st = Some (tt, st') ->
  heap st' = heap st.
Proof.
  intros Hw. rewrite goAlertCallback_eq. intros [= <-]. simpl.
  apply map_eq. intros k.
  destruct (decide (k = frame_address (heap st))) as [->|Hk].
  - by rewrite lookup_delete_eq, frame_address_free.
  - rewrite lookup_delete_ne by done.
    rewrite (Hw h (to_int a) (frame_address (heap st)) _ _ k Hk).
    by rewrite lookup_insert_ne.
Qed.

(** C8.  The bridge keeps nothing from one invocation to the next.
    Take the same invocation twice, on any two memories that agree on
    the record its arguments point to, against any two Go sides in any
    states, after any histories.  Either both runs fault, or both return
    and then: they make the same calls with the same values (for the
    alert, the same parameter value at the address handed over); in each
    run the bridge has only relayed, so the handler saw the caller's
    memory as it was and the result, the Go side's state and the memory
    are what the handler yielded; and against the same Go side in the
    same state on the same memory the two results are equal. *)
Theorem bridge_keeps_no_state (host1 host2 : HostBridge W) i st1 st2 :
  (forall p, record_pointer i = Some p -> heap st1 !! p = heap st2 !! p) ->
  (invoke (host := host1) i st1 = None /\ invoke (host := host2) i st2 = None)
  \/ exists r1 st1' new1 r2 st2' new2,
       invoke (host := host1) i st1 = Some (r1, st1')
       /\ invoke (host := host2) i st2 = Some (r2, st2')
       /\ calls st1' = calls st1 ++ new1
       /\ calls st2' = calls st2 ++ new2
       /\ Forall2 same_call new1 new2
       /\ relayed host1 st1 r1 st1' new1
       /\ relayed host2 st2 r2 st2' new2
       /\ (host1 = host2 -> world st1 = world st2 -> heap st1 = heap st2 ->
           r1 = r2).
Proof.
  intros Hagree.
  destruct i as [h p|h p|h p|h p|h a prm|h s|h a b]; unfold invoke, bind;
    closed_form; try rewrite (Hagree p eq_refl); split_paths;
    try (left; split; reflexivity); right.
  all: try (exists None, st1, [], None, st2, []; rewrite !app_nil_r;
            repeat split; constructor; fail).
  all: try (exists None, (having_read [p] st1), [], None, (having_read [p] st2), [];
            rewrite !app_nil_r; repeat split; constructor; fail).
  all: eexists _, _, [_], _, _, [_];
    (split; [reflexivity|]); (split; [reflexivity|]);
    (split; [reflexivity|]); (split; [reflexivity|]).
  all: split; [constructor; [|constructor]|].
  all: try reflexivity.
  all: try (split; [|split]; [relay_facts..|intros _ _ _; reflexivity]; fail).
  - (* alert: the same value stands at either frame *)
    unfold same_call, framed. simpl.
    split; [reflexivity|]. split; [reflexivity|].
    rewrite !lookup_insert_eq. split; [by eexists|reflexivity].
  - (* alert: the frames are outside the caller's memory *)
    split; [|split]; [alert_relay_facts..|intros _ _ _; reflexivity].
  - (* menu state: the result is the handler's reply *)
    split; [|split].
    + relay_menu_facts.
    + relay_menu_facts.
    + intros -> E1 E2. rewrite E1, E2. reflexivity.
Qed.

(** C9.  Whenever an invocation returns it has made at most one call;
    that call carries the handle the bridge received, finds every
    object of the caller as it was at entry, and once it is over the
    bridge hands those objects back as the handler left them.  With no
    call made, memory and the Go side's state are as at entry. *)
Theorem inputs_are_read_only (host : HostBridge W) i st r st' :
  invoke i st = Some (r, st') ->
  exists new,
    calls st' = calls st ++ new
    /\ (length new <= 1)%nat
    /\ Forall (fun e =>
                 call_handle e.1 = invocation_handle i
                 /\ (forall k o, heap st !! k = Some o -> e.2 !! k = Some o)
                 /\ (forall k o, heap st !! k = Some o ->
                       heap st' !! k = (run_host e.1 (world st) e.2).2.2 !! k))
              new
    /\ (new = [] -> heap st' = heap st /\ world st' = world st).
Proof.
  destruct i as [h p|h p|h p|h p|h a prm|h s|h a b]; unfold invoke, bind;
    closed_form; split_paths; try discriminate; intros [= <- <-]; simpl.
  all: try (exists []; rewrite app_nil_r; repeat split; auto; fail).
  all: try (eexists [_]; split; [reflexivity|]; split; [simpl; lia|];
            split; [|discriminate];
            apply Forall_singleton; simpl; repeat split; auto; fail).
  (* the alert: the frame is outside the caller's objects *)
  eexists [_]. split; [reflexivity|]. split; [simpl; lia|].
  split; [|discriminate].
  apply Forall_singleton. simpl. repeat split.
  - intros k o Hk.
    rewrite lookup_insert_ne; [done|].
    intros E. symmetry in E. revert E. by apply (frame_address_outside _ k o).
  - intros k o Hk.
    rewrite lookup_delete_ne; [done|].
    intros E. symmetry in E. revert E. by apply (frame_address_outside _ k o).
Qed.

End MemoryAndHistory.

(** * The bridge run on the sample memory *)

(** The scenario of the specification: a warning with a text is handed
    over once; the same record without a text is dropped. *)
Example log_scenario_dispatched :
  dispatches <$> (snd <$> goLogMessageCallback (host := quiet_host) 7 16 (sample_state tt))
  = Some [LogMessageCall 7 3 1700000000 64].
Proof. vm_compute. reflexivity. Qed.

Example log_scenario_dropped :
  dispatches <$> (snd <$> goLogMessageCallback (host := quiet_host) 7 32 (sample_state tt))
  = Some [].
Proof. vm_compute. reflexivity. Qed.

(** A pointer to something that is no log record is a fault. *)
Example log_wrong_object_faults :
  goLogMessageCallback (host := quiet_host) 7 48 (sample_state tt) = None.
Proof. vm_compute. reflexivity. Qed.

Example key_scenario :
  dispatches <$> (snd <$> goKeyPressCallback (host := quiet_host) 7 48 (sample_state tt))
  = Some [KeyPressCall 7 68 500].
Proof. vm_compute. reflexivity. Qed.

(** An enum value with the top bit set reaches the handler as the negative
    [int] of the same bits; a flag of 255 reaches it as 255. *)
Example source_scenario :
  dispatches <$> (snd <$> goSourceActivatedCallback (host := quiet_host) 7
                            4294967295 255 (sample_state tt))
  = Some [SourceActivatedCall 7 (-1) 255].
Proof. vm_compute. reflexivity. Qed.

(** The frame of the alert parameter on the sample memory. *)
Example sample_frame : frame_address sample_memory = 101.
Proof. vm_compute. reflexivity. Qed.

(** ** Instances of the theorems that carry hypotheses *)


Lemma log_message_without_text_dropped_witness :
  exists st' n,
    goLogMessageCallback (host := quiet_host) 7 32 (sample_state tt) = Some (tt, st')
    /\ reads st' = reads (sample_state tt) ++ replicate n 32
    /\ (calls st' = calls (sample_state tt) <-> message textless_log = NULL)
    /\ (message textless_log = NULL ->
        world st' = world (sample_state tt) /\ heap st' = heap (sample_state tt)).
Proof.
  apply (log_message_without_text_dropped (host := quiet_host)
           7 32 textless_log (sample_state tt)); [discriminate|reflexivity].
Defined.

Lemma record_pointer_passed_through_witness :
  (exists st',
      goCommandCallback (host := quiet_host) 7 200 (sample_state tt) = Some (tt, st')
      /\ calls st' = calls (sample_state tt) ++ [(CommandCall 7 200, sample_memory)]
      /\ reads st' = reads (sample_state tt))
  /\ (exists st',
      goConfigurationChangedCallback (host := quiet_host) 7 200 (sample_state tt)
      = Some (tt, st')
      /\ calls st' = calls (sample_state tt)
                     ++ [(ConfigurationChangedCall 7 200, sample_memory)]
      /\ reads st' = reads (sample_state tt)).
Proof.
  apply (record_pointer_passed_through (host := quiet_host) 7 200 (sample_state tt)).
  discriminate.
Defined.

Lemma activation_flag_forwarded_verbatim_witness :
  exists st',
    goSourceActivatedCallback (host := quiet_host) 7 4 255 (sample_state tt)
    = Some (tt, st')
    /\ calls st' = calls (sample_state tt)
                   ++ [(SourceActivatedCall 7 (to_int 4) 255, sample_memory)]
    /\ int_image 4 (to_int 4).
Proof.
  apply (activation_flag_forwarded_verbatim (host := quiet_host)
           7 4 255 (sample_state tt)).
  unfold in_uint8. lia.
Defined.

Lemma inputs_are_read_only_witness :
  let st := sample_state 0 in
  let st' := State 0 sample_memory []
               [(AlertCall 7 1 101, <[101 := ParameterObj sample_param]> sample_memory)] in
  exists new,
    calls st' = calls st ++ new
    /\ (length new <= 1)%nat
    /\ Forall (fun e =>
                 call_handle e.1 = invocation_handle (Alert 7 1 sample_param)
                 /\ (forall k o, heap st !! k = Some o -> e.2 !! k = Some o)
                 /\ (forall k o, heap st !! k = Some o ->
                       heap st' !! k
                       = (run_host (host := scribbling_host) e.1 (world st) e.2).2.2 !! k))
              new
    /\ (new = [] -> heap st' = heap st /\ world st' = world st).
Proof.
  intros st st'.
  apply (inputs_are_read_only scribbling_host (Alert 7 1 sample_param) st None st').
  vm_compute. reflexivity.
Defined.

Lemma bridge_keeps_no_state_witness :
  let i := KeyPress 7 48 in
  let st1 := sample_state 0 in
  let st2 := State 5 (<[48 := KeypressObj sample_key]> ∅) [48]
               [(MenuStateChangedCall 9 1, ∅)] in
  (invoke (host := scribbling_host) i st1 = None
   /\ invoke (host := tallying_host) i st2 = None)
  \/ exists r1 st1' new1 r2 st2' new2,
       invoke (host := scribbling_host) i st1 = Some (r1, st1')
       /\ invoke (host := tallying_host) i st2 = Some (r2, st2')
       /\ calls st1' = calls st1 ++ new1
       /\ calls st2' = calls st2 ++ new2
       /\ Forall2 same_call new1 new2
       /\ relayed scribbling_host st1 r1 st1' new1
       /\ relayed tallying_host st2 r2 st2' new2
       /\ (scribbling_host = tallying_host ->
           world st1 = world st2 -> heap st1 = heap st2 -> r1 = r2).
Proof.
  intros i st1 st2.
  apply (bridge_keeps_no_state scribbling_host tallying_host i st1 st2).
  intros p [= <-]. vm_compute. reflexivity.
Defined.

(** The same alert on two memories: the frame is at 101 on one and at 102
    on the other, where 101 is taken; the calls carry the same handle
    and alert kind, and the same parameter stands at either address. *)
Example alert_on_two_memories :
  (fun x => (dispatches x.2,
             (fun e => e.2 !! default NULL (frame_of e.1)) <$> calls x.2))
    <$> goAlertCallback (host := quiet_host) 7 1 sample_param (sample_state tt)
  = Some ([AlertCall 7 1 101], [Some (ParameterObj sample_param)])
  /\ (fun x => (dispatches x.2,
                (fun e => e.2 !! default NULL (frame_of e.1)) <$> calls x.2))
       <$> goAlertCallback (host := quiet_host) 7 1 sample_param
             (State tt (<[101 := Opaque []]> sample_memory) [] [])
     = Some ([AlertCall 7 1 102], [Some (ParameterObj sample_param)]).
Proof. split; vm_compute; reflexivity. Qed.

(** ** Where the specification's wording and the code part *)

(** C5.  libCEC keeps its parameter at 100 and passes its value.  The
    handler overwrites the parameter through the pointer it is handed,
    which is 101; libCEC's parameter at 100 is as it was. *)
Lemma alert_overwrite_not_seen_by_caller :
  ~ alert_mutation_reaches_caller scribbling_host 7 1 100 (sample_state 0).
Proof.
  intros H.
  specialize (H sample_param 101
                (<[101 := ParameterObj sample_param]> sample_memory)
                (State 0 sample_memory []
                   [(AlertCall 7 1 101,
                     <[101 := ParameterObj sample_param]> sample_memory)])).
  assert (E : Some (ParameterObj sample_param) = Some (ParameterObj overwritten)).
  { apply H; vm_compute; reflexivity. }
  discriminate E.
Qed.

(** The result of a menu-state query is the handler's reply and nothing
    else: the same query twice in a row, against a Go side that replies
    with the number of queries it has seen, is dispatched alike and
    returns 0 and then 1. *)
Example repeated_query :
  (fun x => (x.1, dispatches x.2))
    <$> deliver (host := scribbling_host)
          [MenuStateChanged 7 1; MenuStateChanged 7 1] (sample_state 0)
  = Some ([Some 0; Some 1], [MenuStateChangedCall 7 1; MenuStateChangedCall 7 1]).
Proof. vm_compute. reflexivity. Qed.

(** * Further properties of the entry points *)

Ltac split_paths_eq :=
  repeat match goal with
         | |- context [nonnull ?p] => destruct (nonnull p) eqn:?
         | |- context [?m !! ?p ≫= ?f] => destruct (m !! p ≫= f) eqn:?
         end.

Lemma nonnull_true_inv p : nonnull p = true -> p <> NULL.
Proof. intros H ->. discriminate H. Qed.

Lemma as_log_message_Some (m : memory) p r :
  m !! p ≫= as_log_message = Some r <-> m !! p = Some (LogMessageObj r).
Proof.
  destruct (m !! p) as [[r'|k|q|b]|]; simpl; split; intros E;
    try discriminate E; congruence.
Qed.

Section Further.

Context {W : Type} (host : HostBridge W).

Implicit Types (st : state W) (h p : ptr).

(** X1.  Whatever the arguments and the memory, a pointer handed to a
    handler as payload (the log text, the command, the configuration,
    the alert parameter) is never null. *)
Theorem handlers_never_get_null_payload i st r st' :
  invoke i st = Some (r, st') ->
  Forall (fun e => payload_pointer e.1 <> Some NULL) (new_calls st st').
Proof.
  unfold new_calls.
  destruct i as [h p|h p|h p|h p|h a prm|h s|h a b]; unfold invoke, bind;
    closed_form; split_paths_eq; try discriminate; intros [= <- <-]; simpl;
    rewrite ?drop_all, ?drop_app_length; try apply Forall_nil_2;
    apply Forall_singleton; simpl; try discriminate;
    intros [= E].
  - match goal with H : nonnull (message _) = true |- _ =>
      rewrite E in H; discriminate H end.
  - match goal with H : nonnull p = true |- _ =>
      rewrite E in H; discriminate H end.
  - match goal with H : nonnull p = true |- _ =>
      rewrite E in H; discriminate H end.
  - by apply (frame_address_nonnull (heap st)).
Qed.

(** X2.  An entry point faults exactly when it is the log-message or the
    key-press entry point and its record pointer is non-null but points
    to no record of its type; the other five return on every input. *)
Theorem faults_exactly_on_dangling_record i st :
  invoke i st = None <-> dangling (heap st) i.
Proof.
  split.
  - destruct i as [h p|h p|h p|h p|h a prm|h s|h a b]; unfold invoke, bind;
      closed_form; split_paths_eq; try discriminate; intros _.
    + apply dangling_log; [by apply nonnull_true_inv|done].
    + apply dangling_key; [by apply nonnull_true_inv|done].
  - intros [h p Hp Hm|h p Hp Hm]; unfold invoke, bind; closed_form;
      rewrite (nonnull_true p Hp), Hm; reflexivity.
Qed.

(** X3.  An entry point that returns has made no call exactly when its
    guard turned the payload away: a null record pointer on one of the
    four guarded entry points, or a log record with a null text pointer.
    Alert, menu-state and source-activated events are never dropped. *)
Theorem dropped_exactly_when_turned_away i st r st' :
  invoke i st = Some (r, st') ->
  (calls st' = calls st <-> turned_away (heap st) i).
Proof.
  destruct i as [h p|h p|h p|h p|h a prm|h s|h a b]; unfold invoke, bind;
    closed_form; split_paths_eq; try discriminate; intros [= <- <-]; simpl;
    (split; [intros E|intros T]);
    try (by apply snoc_neq in E);
    try reflexivity;
    repeat match goal with
           | H : nonnull _ = false |- _ => apply nonnull_false in H
           | H : nonnull _ = true |- _ => apply nonnull_true_inv in H
           | H : _ !! _ ≫= as_log_message = Some _ |- _ =>
               apply as_log_message_Some in H
           end;
    subst;
    try (inversion T; subst; congruence);
    try (constructor; fail).
  by apply (away_textless_log _ h p c).
Qed.

(** X4.  An entry point reads memory through nothing but the record
    pointer of a log-message or key-press event, and only when that
    pointer is non-null: never through the handle, the text pointer, a
    command or configuration pointer, or the parameter's data pointer. *)
Theorem reads_only_through_record i st r st' :
  invoke i st = Some (r, st') ->
  exists ps,
    reads st' = reads st ++ ps
    /\ Forall (fun q => record_pointer i = Some q /\ q <> NULL) ps.
Proof.
  destruct i as [h p|h p|h p|h p|h a prm|h s|h a b]; unfold invoke, bind;
    closed_form; split_paths_eq; try discriminate; intros [= <- <-]; simpl;
    try (exists []; split; [by rewrite app_nil_r|apply Forall_nil_2]);
    repeat match goal with
           | H : nonnull _ = true |- _ => apply nonnull_true_inv in H
           end;
    eexists; (split; [reflexivity|]); repeat constructor; done.
Qed.

(** One invocation adds nothing to the trace, or one call of its own slot
    with its own handle. *)
Lemma invoke_adds_at_most_one i st r st' :
  invoke i st = Some (r, st') ->
  calls st' = calls st
  \/ exists e, calls st' = calls st ++ [e]
               /\ call_slot e.1 = invocation_slot i
               /\ call_handle e.1 = invocation_handle i.
Proof.
  destruct i as [h p|h p|h p|h p|h a prm|h s|h a b]; unfold invoke, bind;
    closed_form; split_paths; try discriminate; intros [= <- <-]; simpl;
    try (left; reflexivity); right; eexists; repeat split.
Qed.

(** X5.  Events delivered one after the other are dispatched in the
    order of delivery, each at most once and each to the handler of its
    own slot with its own handle: the calls made are a subsequence of
    the events, and libCEC gets one result per event. *)
Theorem delivered_in_order evs st rs st' :
  deliver evs st = Some (rs, st') ->
  length rs = length evs
  /\ exists new,
      calls st' = calls st ++ new
      /\ sublist ((fun e => (call_slot e.1, call_handle e.1)) <$> new)
                 ((fun i => (invocation_slot i, invocation_handle i)) <$> evs).
Proof.
  revert st rs st'. induction evs as [|i evs IH]; intros st rs st'.
  - intros [= <- <-]. split; [reflexivity|]. exists [].
    split; [by rewrite app_nil_r|constructor].
  - cbn [deliver]. unfold bind at 1.
    destruct (invoke i st) as [[r st1]|] eqn:Hi; [|discriminate].
    unfold bind at 1.
    destruct (deliver evs st1) as [[rs1 st2]|] eqn:Hd; [|discriminate].
    intros [= <- <-].
    destruct (IH st1 rs1 st2 Hd) as (Hlen & new & Hnew & Hsub).
    split; [simpl; by rewrite Hlen|].
    destruct (invoke_adds_at_most_one i st r st1 Hi) as [E|(e & E & Hs & Hh)].
    + exists new. rewrite Hnew, E. split; [reflexivity|].
      simpl. by constructor.
    + exists (e :: new). rewrite Hnew, E, <- app_assoc. split; [reflexivity|].
      simpl. rewrite Hs, Hh. by constructor.
Qed.

End Further.

(** X7.  For the six entry points other than alert, the calls made
    depend on memory through the object at the record pointer alone:
    on two memories that agree there, and against any two Go sides in any
    states, an invocation faults on both or makes the same calls on
    both. *)
Theorem dispatch_depends_on_record_only {W1 W2 : Type}
    (host1 : HostBridge W1) (host2 : HostBridge W2)
    i (st1 : state W1) (st2 : state W2) :
  invocation_slot i <> AlertSlot ->
  (forall p, record_pointer i = Some p -> heap st1 !! p = heap st2 !! p) ->
  (fun x => (new_calls st1 x.2).*1) <$> invoke (host := host1) i st1
  = (fun x => (new_calls st2 x.2).*1) <$> invoke (host := host2) i st2.
Proof.
  intros Hslot Hagree. unfold new_calls.
  destruct i as [h p|h p|h p|h p|h a prm|h s|h a b]; try (by destruct Hslot);
    unfold invoke, bind; closed_form;
    try rewrite (Hagree p eq_refl);
    split_paths; simpl;
    rewrite ?drop_all, ?drop_app_length; reflexivity.
Qed.

(** ** Instances on the sample memory *)

Lemma handlers_never_get_null_payload_witness :
  let st := sample_state 0 in
  let st' := State 0 sample_memory []
               [(AlertCall 7 1 101, <[101 := ParameterObj sample_param]> sample_memory)] in
  Forall (fun e => payload_pointer e.1 <> Some NULL) (new_calls st st').
Proof.
  intros st st'.
  apply (handlers_never_get_null_payload scribbling_host
           (Alert 7 1 sample_param) st None st').
  vm_compute. reflexivity.
Defined.

Lemma dropped_exactly_when_turned_away_witness :
  let st := sample_state tt in
  let st' := State tt sample_memory [32] [] in
  calls st' = calls st <-> turned_away (heap st) (LogMessage 7 32).
Proof.
  intros st st'.
  apply (dropped_exactly_when_turned_away quiet_host (LogMessage 7 32) st None st').
  vm_compute. reflexivity.
Defined.

Lemma reads_only_through_record_witness :
  let st := sample_state tt in
  let st' := State tt sample_memory [48; 48]
               [(KeyPressCall 7 68 500, sample_memory)] in
  exists ps,
    reads st' = reads st ++ ps
    /\ Forall (fun q => record_pointer (KeyPress 7 48) = Some q /\ q <> NULL) ps.
Proof.
  intros st st'.
  apply (reads_only_through_record quiet_host (KeyPress 7 48) st None st').
  vm_compute. reflexivity.
Defined.

Lemma delivered_in_order_witness :
  let evs := [LogMessage 7 16; LogMessage 7 32; MenuStateChanged 9 1] in
  let st := sample_state tt in
  let rs := [None; None; Some 1] in
  let st' := State tt sample_memory [16; 16; 16; 16; 32]
               [(LogMessageCall 7 3 1700000000 64, sample_memory);
                (MenuStateChangedCall 9 1, sample_memory)] in
  length rs = length evs
  /\ exists new,
      calls st' = calls st ++ new
      /\ sublist ((fun e => (call_slot e.1, call_handle e.1)) <$> new)
                 ((fun i => (invocation_slot i, invocation_handle i)) <$> evs).
Proof.
  intros evs st rs st'.
  apply (delivered_in_order quiet_host evs st rs st').
  vm_compute. reflexivity.
Defined.

Lemma scribbling_host_writes_through_param :
  alert_writes_through_param (host := scribbling_host).
Proof.
  intros h a q w m k Hk. simpl. apply lookup_insert_ne. congruence.
Defined.

Lemma alert_overwrite_discarded_witness :
  let st := sample_state 0 in
  let st' := State 0 sample_memory []
               [(AlertCall 7 1 101, <[101 := ParameterObj sample_param]> sample_memory)] in
  heap st' = heap st.
Proof.
  intros st st'.
  apply (alert_overwrite_discarded scribbling_host 7 1 sample_param st st'
           scribbling_host_writes_through_param).
  vm_compute. reflexivity.
Defined.

Lemma dispatch_depends_on_record_only_witness :
  let st1 := sample_state tt in
  let st2 := State 5 (<[48 := KeypressObj sample_key]> ∅) [48]
               [(MenuStateChangedCall 9 1, ∅)] in
  (fun x => (new_calls st1 x.2).*1) <$> invoke (host := quiet_host) (KeyPress 7 48) st1
  = (fun x => (new_calls st2 x.2).*1)
      <$> invoke (host := scribbling_host) (KeyPress 7 48) st2.
Proof.
  intros st1 st2.
  apply (dispatch_depends_on_record_only quiet_host scribbling_host
           (KeyPress 7 48) st1 st2).
  - discriminate.
  - intros p [= <-]. vm_compute. reflexivity.
Defined.
